(** * vue3-composables: [useProvider] and [useRefState]

    A shallow embedding of the two composables of the repository and of the
    part of the host framework (Vue 3) they call:

    - [packages/use-provider]  : [useProvider], over Vue's [provide]/[inject];
    - [packages/use-ref-state] : [useRefState], over Vue's [ref]/[readonly].

    JavaScript values are an inductive type; object and function values are
    references (addresses), so that "the same reference" is plain equality.
    Code that throws returns an [Outcome]; code that reads or writes reactive
    cells runs in a small state-and-exception monad over a [World]. *)

From Stdlib Require Import ZArith String List Floats.SpecFloat.
From stdpp Require Import base option gmap strings list fin_maps.

(** ** JavaScript values *)

Module JS.

(** IEEE-754 binary64, as the specification floats of the standard library. *)
Definition prec : Z := 53.
Definition emax : Z := 1024.

Inductive JSValue : Type :=
| VUndefined
| VNull
| VBool (b : bool)
| VNumber (x : spec_float)
| VBigInt (n : Z)
| VString (s : string)
| VSymbol (id : nat)
| VObject (addr : nat)
| VFunction (fid : nat).

#[export] Instance JSValue_inhabited : Inhabited JSValue := populate VUndefined.

(** The number literal [z] (an integer that binary64 represents exactly). *)
Definition num (z : Z) : JSValue :=
  VNumber (binary_normalize prec emax z 0 false).

Definition NaN : JSValue := VNumber S754_nan.
Definition negative_zero : JSValue := VNumber (S754_zero true).

(** [a + b] on two numbers (the only case of [+] the examples use). *)
Definition js_add (a b : JSValue) : JSValue :=
  match a, b with
  | VNumber x, VNumber y => VNumber (SFadd prec emax x y)
  | _, _ => NaN
  end.

(** ECMAScript ToBoolean. *)
Definition ToBoolean (v : JSValue) : bool :=
  match v with
  | VUndefined | VNull => false
  | VBool b => b
  | VNumber (S754_zero _) | VNumber S754_nan => false
  | VNumber _ => true
  | VBigInt n => negb (n =? 0)%Z
  | VString s => negb (String.eqb s "")
  | VSymbol _ | VObject _ | VFunction _ => true
  end.

(** The operator [typeof]. *)
Definition typeof (v : JSValue) : string :=
  match v with
  | VUndefined => "undefined"
  | VNull => "object"
  | VBool _ => "boolean"
  | VNumber _ => "number"
  | VBigInt _ => "bigint"
  | VString _ => "string"
  | VSymbol _ => "symbol"
  | VObject _ => "object"
  | VFunction _ => "function"
  end.

(** [v == null]: the value is [null] or [undefined]. *)
Definition is_nullish (v : JSValue) : bool :=
  match v with
  | VUndefined | VNull => true
  | _ => false
  end.

(** What a [throw] carries: an object built by an error constructor, or any
    other value. *)
Inductive Thrown : Type :=
| ErrorObject (name message : string)
| Raw (v : JSValue).

(** [new Error(message)] and [new TypeError(message)]. *)
Definition new_Error (message : string) : Thrown := ErrorObject "Error" message.
Definition new_TypeError (message : string) : Thrown := ErrorObject "TypeError" message.

(** The completion of a call: a returned value or a thrown one. *)
Inductive Outcome (A : Type) : Type :=
| Normal (a : A)
| Throw (e : Thrown).
Arguments Normal {A} a.
Arguments Throw {A} e.

Definition throws {A} (o : Outcome A) : bool :=
  match o with Normal _ => false | Throw _ => true end.

(** [s] occurs in [t]. *)
Definition occurs_in (s t : string) : Prop :=
  exists before after, t = before +:+ s +:+ after.

End JS.

Import JS.

(** ** packages/use-provider *)

Module UseProvider.

(** Modelled from the spec: Vue's [provide] and [inject] are the host's
    "ancestor-scope key/value publish-and-lookup mechanism (publish by
    ancestor, lookup by descendant, keyed by arbitrary string)". What each
    ancestor of the running component published is a finite map; the
    ancestors are listed nearest first and the nearest publisher of a key
    wins. [inject] of a key nobody published is [undefined]. *)
Definition Ancestors : Type := list (gmap string JSValue).

Definition provide (key : string) (value : JSValue)
  (provides : gmap string JSValue) : gmap string JSValue :=
  <[key := value]> provides.

Fixpoint resolve (ancestors : Ancestors) (key : string) : option JSValue :=
  match ancestors with
  | [] => None
  | provides :: up =>
      match provides !! key with
      | Some v => Some v
      | None => resolve up key
      end
  end.

Definition inject (ancestors : Ancestors) (key : string) : JSValue :=
  default VUndefined (resolve ancestors key).

(** The text of the template literal in the [throw]. *)
Definition remediation_hint : string :=
  "You may have forgotten to wrap it in the corresponding component.".

Definition error_message (providerKey : string) : string :=
  "Incorrect use of provider " +:+ providerKey +:+ ". " +:+ remediation_hint.

(** [useProvider], run in a component whose ancestors are [ancestors]. *)
Definition useProvider (ancestors : Ancestors) (providerKey : string)
  : Outcome JSValue :=
  let ctx := inject ancestors providerKey in
  if negb (ToBoolean ctx)
  then Throw (new_Error (error_message providerKey))
  else Normal ctx.

End UseProvider.

Import UseProvider.

(** ** packages/use-ref-state *)

Module UseRefState.

(** The reactive cells of the running application, by address; the address
    the next [ref] takes; and the calls the component made to the functions
    it was handed, oldest first, each with its argument. *)
Record World : Type := mkWorld {
  cells : gmap nat JSValue;
  next_ref : nat;
  calls : list (nat * JSValue)
}.

(** Computations that read and write the world and may throw. *)
Definition M (A : Type) : Type := World → Outcome A * World.

#[export] Instance M_ret : MRet M := λ A a w, (Normal a, w).

#[export] Instance M_bind : MBind M := λ A B k m w,
  match m w with
  | (Normal a, w') => k a w'
  | (Throw e, w') => (Throw e, w')
  end.

Definition throw {A} (e : Thrown) : M A := λ w, (Throw e, w).

(** The object a [ref] call returns: a box around one cell. *)
Record Ref : Type := mkRef { cell : nat }.

(** What the first component of the result is: the ref itself, or the
    proxy [readonly] built over it. *)
Inductive Handle : Type :=
| Plain (r : Ref)
| ReadonlyProxy (target : Ref).

Definition target_of (h : Handle) : Ref :=
  match h with Plain r => r | ReadonlyProxy r => r end.

Definition isReadonly (h : Handle) : bool :=
  match h with Plain _ => false | ReadonlyProxy _ => true end.

(** Modelled from the spec: Vue's [ref] is the host's "reactive-cell
    primitive offering get/set of a boxed value"; every call makes a cell
    of its own. Change notification, and the reactive proxy Vue puts around
    an object stored in a cell, are the host's and are left out. *)
Definition ref (value : JSValue) : M Ref := λ w,
  (Normal (mkRef (next_ref w)),
   mkWorld (<[next_ref w := value]> (cells w)) (S (next_ref w)) (calls w)).

(** The value in the cell of [state]. *)
Definition current (state : Ref) (w : World) : JSValue :=
  default VUndefined (cells w !! cell state).

(** [r.value] *)
Definition get_value (r : Ref) : M JSValue := λ w, (Normal (current r w), w).

(** [r.value = v] *)
Definition set_value (r : Ref) (v : JSValue) : M unit := λ w,
  (Normal tt, mkWorld (<[cell r := v]> (cells w)) (next_ref w) (calls w)).

(** Modelled from the spec: Vue's [readonly] is the host's "read-only-view
    wrapper over a reactive cell that blocks direct external writes while
    leaving the underlying cell mutable from elsewhere". *)
Definition readonly (r : Ref) : Handle := ReadonlyProxy r.

(** [handle.value], read by the caller of [useRefState]. *)
Definition handle_get (h : Handle) : M JSValue := get_value (target_of h).

(** [handle.value = v], attempted by the caller of [useRefState]: a write
    to the cell through the ref, dropped by the read-only proxy. *)
Definition handle_set (h : Handle) (v : JSValue) : M unit :=
  match h with
  | Plain r => set_value r v
  | ReadonlyProxy _ => mret tt
  end.

(** The handle [useRefState] returns for a given [asReadonly] argument. *)
Definition handle_for (asReadonly : option bool) (state : Ref) : Handle :=
  if default true asReadonly then readonly state else Plain state.

Section Callables.

(** What the function values of the program do when called with one
    argument: they may read and write cells, return or throw. *)
Variable fn_sem : nat → JSValue → gmap nat JSValue → Outcome JSValue * gmap nat JSValue.

(** A call the component makes; it is recorded in [calls]. *)
Definition invoke (fid : nat) (arg : JSValue) : M JSValue := λ w,
  let '(r, cs) := fn_sem fid arg (cells w) in
  (r, mkWorld cs (next_ref w) (calls w ++ [(fid, arg)])).

(** [callee(arg)] *)
Definition call (callee arg : JSValue) : M JSValue :=
  match callee with
  | VFunction fid => invoke fid arg
  | _ => throw (new_TypeError "setter is not a function")
  end.

Definition setterIsFunction (value : JSValue) : bool :=
  String.eqb (typeof value) "function".

(** The closure [setState] over the ref [state]. *)
Definition setState (state : Ref) (setter : JSValue) : M unit :=
  if setterIsFunction setter then
    prev ← get_value state;
    next ← call setter prev;
    set_value state next
  else
    set_value state setter.

(** [useRefState(initialValue, asReadonly)]; an omitted argument is
    [None]. *)
Definition useRefState (initialValue : option JSValue) (asReadonly : option bool)
  : M (Handle * (JSValue → M unit)) :=
  let asReadonly := default true asReadonly in
  state ← ref (default VUndefined initialValue);
  mret (if asReadonly then readonly state else Plain state, setState state).

(** The ways the caller can change a cell it got from [useRefState]. *)
Inductive Mutation : Type :=
| ViaSetter (setter : JSValue)
| Direct (v : JSValue).

Definition mutate (handle : Handle) (set : JSValue → M unit) (m : Mutation) : M unit :=
  match m with
  | ViaSetter setter => set setter
  | Direct v => handle_set handle v
  end.

(** The world after a sequence of mutations; one that throws leaves the
    world as the throw left it and the rest still runs, as when the
    caller catches. *)
Fixpoint mutate_all (handle : Handle) (set : JSValue → M unit)
  (ms : list Mutation) (w : World) : World :=
  match ms with
  | [] => w
  | m :: rest => mutate_all handle set rest (mutate handle set m w).2
  end.

(** A function that writes no cell. *)
Definition writes_nothing (fid : nat) : Prop :=
  ∀ arg cs, (fn_sem fid arg cs).2 = cs.

(** A pure function: it is the mathematical function [f]. *)
Definition pure_function (fid : nat) (f : JSValue → JSValue) : Prop :=
  ∀ arg cs, fn_sem fid arg cs = (Normal (f arg), cs).

(** A mutation whose updater, if it has one, writes no cell itself. *)
Definition quiet (m : Mutation) : Prop :=
  match m with
  | ViaSetter (VFunction g) => writes_nothing g
  | _ => True
  end.

End Callables.

(** What a mutation makes of the value [c] of the cell, when the function
    value [g] stands for the pure function [f g] and the handle is read-only
    or not: the reading of [setState] and of an assignment as one step of a
    fold. *)
Definition apply_mutation (f : nat → JSValue → JSValue) (read_only : bool)
  (c : JSValue) (m : Mutation) : JSValue :=
  match m with
  | ViaSetter (VFunction g) => f g c
  | ViaSetter v => v
  | Direct v => if read_only then c else v
  end.

(** The mutation passes the function [g] to the setter, and [g] is [f g]. *)
Definition updater_is (fn_sem : nat → JSValue → gmap nat JSValue → Outcome JSValue * gmap nat JSValue)
  (f : nat → JSValue → JSValue) (m : Mutation) : Prop :=
  match m with
  | ViaSetter (VFunction g) => pure_function fn_sem g (f g)
  | _ => True
  end.

(** The functions a sequence of mutations passes to the setter, in order. *)
Definition updaters (ms : list Mutation) : list nat :=
  omap (λ m, match m with ViaSetter (VFunction g) => Some g | _ => None end) ms.

End UseRefState.

Import UseRefState.

(** ** Concrete programs, for the examples *)

Module Examples.

(** Function 0 is [prev => prev + 1]; function 1 is [() => fn0], which
    returns function 0; function 2 throws; function 3 writes cell 0 behind
    the setter's back and returns its argument. *)
Definition fns (fid : nat) (arg : JSValue) (cs : gmap nat JSValue)
  : Outcome JSValue * gmap nat JSValue :=
  match fid with
  | 0 => (Normal (js_add arg (num 1)), cs)
  | 1 => (Normal (VFunction 0), cs)
  | 2 => (Throw (new_Error "boom"), cs)
  | 3 => (Normal arg, <[0 := VNull]> cs)
  | _ => (Normal VUndefined, cs)
  end.

Definition start : World := mkWorld ∅ 0 [].

(** A world with one cell, holding [1]. *)
Definition one_cell : World := mkWorld {[0 := num 1]} 1 [].

(** An object [{ name: 'John' }], by its address. *)
Definition john : JSValue := VObject 7.

(** The scenarios of [index.test.ts], each returning what the test reads
    from [state.value] at its end. *)
Definition initialize_with (x : option JSValue) : M JSValue :=
  '(state, _) ← useRefState fns x None;
  handle_get state.

Definition update_with (x setter : JSValue) : M JSValue :=
  '(state, setState) ← useRefState fns (Some x) None;
  _ ← setState setter;
  handle_get state.

Definition assign_directly (asReadonly : option bool) (x v : JSValue) : M JSValue :=
  '(state, _) ← useRefState fns (Some x) asReadonly;
  _ ← handle_set state v;
  handle_get state.

Definition readonly_by_default : M bool :=
  '(state, _) ← useRefState fns (Some (num 42)) None;
  mret (isReadonly state).

End Examples.

(** * Properties of [useProvider] *)

Section ProviderFacts.

Implicit Types (ancestors : Ancestors) (key : string) (v : JSValue).

Lemma inject_published ancestors key v :
  resolve ancestors key = Some v → inject ancestors key = v.
Proof. unfold inject. by intros ->. Qed.

Lemma inject_unpublished ancestors key :
  resolve ancestors key = None → inject ancestors key = VUndefined.
Proof. unfold inject. by intros ->. Qed.

(** The nearest publisher wins; a key the nearest ancestor did not publish
    is looked up further up. *)
Lemma resolve_nearest ancestors provides key v :
  resolve (provide key v provides :: ancestors) key = Some v.
Proof. unfold provide. simpl. by rewrite lookup_insert_eq. Qed.


(** The two exits of [useProvider], by the truthiness of what [inject]
    gave. *)
Lemma useProvider_truthy ancestors key :
  ToBoolean (inject ancestors key) = true →
  useProvider ancestors key = Normal (inject ancestors key).
Proof. unfold useProvider. simpl. by intros ->. Qed.

Lemma useProvider_falsy ancestors key :
  ToBoolean (inject ancestors key) = false →
  useProvider ancestors key = Throw (new_Error (error_message key)).
Proof. unfold useProvider. simpl. by intros ->. Qed.

Lemma useProvider_throws_iff ancestors key :
  throws (useProvider ancestors key) = true ↔ ToBoolean (inject ancestors key) = false.
Proof.
  unfold useProvider. simpl.
  destruct (ToBoolean (inject ancestors key)); simpl; split; congruence.
Qed.

(** A truthy published value comes back as it was published. *)
Lemma useProvider_returns_truthy ancestors key v :
  resolve ancestors key = Some v → ToBoolean v = true →
  useProvider ancestors key = Normal v.
Proof.
  intros Hres Htrue. rewrite useProvider_truthy; rewrite (inject_published _ _ _ Hres); done.
Qed.

(** Nothing published, or [null] or [undefined] published: the same
    failure. *)
Lemma useProvider_unpublished ancestors key :
  resolve ancestors key = None →
  useProvider ancestors key = Throw (new_Error (error_message key)).
Proof.
  intros Hres. apply useProvider_falsy. by rewrite (inject_unpublished _ _ Hres).
Qed.

Lemma useProvider_nullish ancestors key v :
  resolve ancestors key = Some v → is_nullish v = true →
  useProvider ancestors key = Throw (new_Error (error_message key)).
Proof.
  intros Hres Hnull. apply useProvider_falsy. rewrite (inject_published _ _ _ Hres).
  by destruct v.
Qed.

(** Every failure is the one [Error], whose message depends on the key
    alone. *)
Lemma useProvider_one_error ancestors key e :
  useProvider ancestors key = Throw e → e = new_Error (error_message key).
Proof.
  unfold useProvider. simpl.
  destruct (ToBoolean (inject ancestors key)); simpl; congruence.
Qed.

Lemma string_app_assoc (s1 s2 s3 : string) : (s1 +:+ s2) +:+ s3 = s1 +:+ s2 +:+ s3.
Proof.
  induction s1 as [|a s1 IH]; [done|].
  change (String a ((s1 +:+ s2) +:+ s3) = String a (s1 +:+ s2 +:+ s3)). by rewrite IH.
Qed.

Lemma string_app_empty_r (s : string) : s +:+ "" = s.
Proof.
  induction s as [|a s IH]; [done|].
  change (String a (s +:+ "") = String a s). by rewrite IH.
Qed.

Lemma error_message_names_key key : occurs_in key (error_message key).
Proof.
  exists "Incorrect use of provider ", (". " +:+ remediation_hint). reflexivity.
Qed.

Lemma error_message_has_hint key : occurs_in remediation_hint (error_message key).
Proof.
  exists ("Incorrect use of provider " +:+ key +:+ ". "), "".
  unfold error_message. by rewrite !string_app_assoc, string_app_empty_r.
Qed.

(** The values that are falsy without being [null] or [undefined]. *)
Lemma falsy_not_nullish v :
  ToBoolean v = false → is_nullish v = false →
  v = VBool false ∨ (∃ sign, v = VNumber (S754_zero sign)) ∨ v = NaN
  ∨ v = VBigInt 0 ∨ v = VString "".
Proof.
  destruct v as [| |b|x|n|s| | |]; simpl; try discriminate.
  - destruct b; [discriminate|]. auto.
  - destruct x; try discriminate; eauto 6.
  - intros Hn _. apply negb_false_iff, Z.eqb_eq in Hn. subst. auto 6.
  - intros Hs _. apply negb_false_iff, String.eqb_eq in Hs. subst. auto 6.
Qed.

End ProviderFacts.

(** * Properties of [useRefState] *)

(** Reads [current] of a cell that was just written. *)
Ltac read_cell :=
  unfold current, set_value; simpl; rewrite ?lookup_insert_eq; simpl.

Section RefStateFacts.

Variable fn_sem : nat → JSValue → gmap nat JSValue → Outcome JSValue * gmap nat JSValue.

Implicit Types (state : Ref) (handle : Handle) (w : World) (v y : JSValue).

Lemma useRefState_creates initialValue asReadonly w :
  useRefState fn_sem initialValue asReadonly w =
    (Normal (handle_for asReadonly (mkRef (next_ref w)), setState fn_sem (mkRef (next_ref w))),
     mkWorld (<[next_ref w := default VUndefined initialValue]> (cells w))
             (S (next_ref w)) (calls w)).
Proof. reflexivity. Qed.

Lemma target_of_handle_for asReadonly state :
  target_of (handle_for asReadonly state) = state.
Proof. unfold handle_for. by destruct (default true asReadonly). Qed.

Lemma handle_get_current handle w :
  handle_get handle w = (Normal (current (target_of handle) w), w).
Proof. reflexivity. Qed.

Lemma current_set_value state v w : current state (set_value state v w).2 = v.
Proof. unfold current, set_value. simpl. by rewrite lookup_insert_eq. Qed.

Lemma current_set_value_other state state' v w :
  cell state ≠ cell state' → current state' (set_value state v w).2 = current state' w.
Proof. intros Hne. unfold current, set_value. simpl. by rewrite lookup_insert_ne. Qed.

Lemma callable_is_function v : setterIsFunction v = true → ∃ g, v = VFunction g.
Proof. destruct v; try discriminate. eauto. Qed.

Lemma function_is_callable g : setterIsFunction (VFunction g) = true.
Proof. reflexivity. Qed.

(** The two branches of [setState]. *)
Lemma setState_literal state y w :
  setterIsFunction y = false → setState fn_sem state y w = set_value state y w.
Proof. unfold setState. by intros ->. Qed.

Lemma setState_callable state g w :
  setState fn_sem state (VFunction g) w =
    match fn_sem g (current state w) (cells w) with
    | (Normal next, cs) =>
        (Normal tt, mkWorld (<[cell state := next]> cs) (next_ref w)
                            (calls w ++ [(g, current state w)]))
    | (Throw e, cs) =>
        (Throw e, mkWorld cs (next_ref w) (calls w ++ [(g, current state w)]))
    end.
Proof.
  unfold setState, call, invoke, get_value, set_value, current, mbind, M_bind. simpl.
  by destruct (fn_sem g _ (cells w)) as [[next|e] cs].
Qed.

Lemma setState_calls state g w :
  calls (setState fn_sem state (VFunction g) w).2 = calls w ++ [(g, current state w)].
Proof.
  rewrite setState_callable. by destruct (fn_sem g _ (cells w)) as [[next|e] cs].
Qed.

(** No operation gives an address back: [next_ref] never decreases. *)
Lemma setState_next_ref state v w : next_ref (setState fn_sem state v w).2 = next_ref w.
Proof.
  destruct (setterIsFunction v) eqn:Hv.
  - apply callable_is_function in Hv as [g ->]. rewrite setState_callable.
    by destruct (fn_sem g _ (cells w)) as [[next|e] cs].
  - by rewrite setState_literal.
Qed.

Lemma handle_set_next_ref handle v w : next_ref (handle_set handle v w).2 = next_ref w.
Proof. by destruct handle. Qed.

Lemma useRefState_next_ref initialValue asReadonly w :
  next_ref (useRefState fn_sem initialValue asReadonly w).2 = S (next_ref w).
Proof. reflexivity. Qed.

(** A mutation of one cell, by a setter whose updater writes nothing itself,
    leaves every other cell as it was. *)
Lemma setState_other state state' v w :
  quiet fn_sem (ViaSetter v) → cell state ≠ cell state' →
  current state' (setState fn_sem state v w).2 = current state' w.
Proof.
  intros Hq Hne. destruct (setterIsFunction v) eqn:Hv.
  - apply callable_is_function in Hv as [g ->]. simpl in Hq.
    rewrite setState_callable. specialize (Hq (current state w) (cells w)).
    destruct (fn_sem g _ (cells w)) as [[next|e] cs]; simpl in *; subst cs; [|done].
    unfold current. simpl. by rewrite lookup_insert_ne.
  - rewrite setState_literal by done. by apply current_set_value_other.
Qed.

Lemma handle_set_other handle state' v w :
  cell (target_of handle) ≠ cell state' →
  current state' (handle_set handle v w).2 = current state' w.
Proof.
  intros Hne. destruct handle as [r|r]; simpl in *; [|done].
  by apply current_set_value_other.
Qed.

Lemma mutate_all_next_ref handle state ms w :
  next_ref (mutate_all handle (setState fn_sem state) ms w) = next_ref w.
Proof.
  revert w. induction ms as [|m ms IH]; intros w; [done|].
  simpl. rewrite IH. destruct m as [setter|v]; simpl.
  - apply setState_next_ref.
  - apply handle_set_next_ref.
Qed.

Lemma mutate_all_other handle state state' ms w :
  target_of handle = state →
  Forall (quiet fn_sem) ms → cell state ≠ cell state' →
  current state' (mutate_all handle (setState fn_sem state) ms w) = current state' w.
Proof.
  intros <- Hq Hne. revert w. induction Hq as [|m ms Hm _ IH]; intros w; [done|].
  simpl. rewrite IH. destruct m as [setter|v]; simpl.
  - by apply setState_other.
  - by apply handle_set_other.
Qed.

End RefStateFacts.

(** * The claims *)

Section Provider.

Implicit Types (ancestors : Ancestors) (key : string) (v : JSValue).

(** C1. The claim is that every published value other than [null] and
    [undefined] comes back from [useProvider] as it was published. The code
    tests [!ctx]: with the number [0] published under ["count"], the call
    throws instead of returning [0]. *)
Theorem useProvider_published_zero_throws :
  resolve [provide "count" (num 0) ∅] "count" = Some (num 0)
  ∧ is_nullish (num 0) = false
  ∧ useProvider [provide "count" (num 0) ∅] "count"
    = Throw (new_Error (error_message "count")).
Proof. vm_compute. done. Qed.

(** C2. The claim is that [useProvider] fails exactly when nothing, [null]
    or [undefined] is published under the key. The failure is the one
    [Error] naming the key, but it is also raised for a published value
    that is neither [null] nor [undefined]: here the boolean [false]. *)
Theorem useProvider_fails_on_published_false :
  ∃ ancestors key v,
    resolve ancestors key = Some v
    ∧ is_nullish v = false
    ∧ throws (useProvider ancestors key) = true.
Proof.
  exists [provide "enabled" (VBool false) ∅], "enabled", (VBool false).
  vm_compute. done.
Qed.

(** C3. A published value that is falsy without being [null] or
    [undefined] (such as [0], the empty string, [false] or [NaN]) makes
    [useProvider] throw the not-found error instead of returning the value:
    the guard is the truthiness of what [inject] gave. *)
Theorem useProvider_falsy_value_throws ancestors key v :
  resolve ancestors key = Some v →
  is_nullish v = false →
  ToBoolean v = false →
  useProvider ancestors key = Throw (new_Error (error_message key))
  ∧ useProvider ancestors key ≠ Normal v.
Proof.
  intros Hres _ Hfalsy.
  assert (useProvider ancestors key = Throw (new_Error (error_message key))) as Hthrow.
  { apply useProvider_falsy. by rewrite (inject_published _ _ _ Hres). }
  split; [done|]. rewrite Hthrow. discriminate.
Qed.

Lemma useProvider_falsy_value_throws_witness :
  useProvider [provide "label" (VString "") ∅] "label"
    = Throw (new_Error (error_message "label"))
  ∧ useProvider [provide "label" (VString "") ∅] "label" ≠ Normal (VString "").
Proof.
  apply (useProvider_falsy_value_throws [provide "label" (VString "") ∅] "label" (VString ""));
    vm_compute; reflexivity.
Defined.

End Provider.

Section RefState.

Variable fn_sem : nat → JSValue → gmap nat JSValue → Outcome JSValue * gmap nat JSValue.

Implicit Types (state : Ref) (handle : Handle) (w : World) (v y : JSValue).
Implicit Types (initialValue : option JSValue) (asReadonly : option bool).

(** C4. Called with a value that is not a function, the setter puts that
    value in the cell: the handle then reads it, and setting it again
    changes nothing at all. *)
Theorem setter_literal_sets_value initialValue asReadonly w y :
  setterIsFunction y = false →
  ∃ handle setter w1,
    useRefState fn_sem initialValue asReadonly w = (Normal (handle, setter), w1)
    ∧ ∀ w2, ∃ w3,
        setter y w2 = (Normal tt, w3)
        ∧ handle_get handle w3 = (Normal y, w3)
        ∧ setter y w3 = (Normal tt, w3).
Proof.
  intros Hy. eexists _, _, _. split; [apply useRefState_creates|].
  intros w2. eexists. rewrite !setState_literal by done.
  split; [reflexivity|]. rewrite handle_get_current, target_of_handle_for.
  split.
  - by read_cell.
  - unfold set_value. simpl. by rewrite insert_insert_eq.
Qed.

(** C5. Called with a pure function [f], the setter calls it once, with the
    value the cell holds, and puts [f] of that value in the cell; nothing
    else in the world changes. *)
Theorem setter_updater_applies_function initialValue asReadonly w g f :
  pure_function fn_sem g f →
  ∃ handle setter w1,
    useRefState fn_sem initialValue asReadonly w = (Normal (handle, setter), w1)
    ∧ ∀ w2, ∃ c w3,
        handle_get handle w2 = (Normal c, w2)
        ∧ setter (VFunction g) w2 = (Normal tt, w3)
        ∧ handle_get handle w3 = (Normal (f c), w3)
        ∧ calls w3 = calls w2 ++ [(g, c)]
        ∧ cells w3 = <[cell (target_of handle) := f c]> (cells w2)
        ∧ next_ref w3 = next_ref w2.
Proof.
  intros Hpure. eexists _, _, _. split; [apply useRefState_creates|].
  intros w2. eexists _, _. rewrite !handle_get_current, target_of_handle_for.
  split; [reflexivity|]. rewrite setState_callable, Hpure.
  split; [reflexivity|]. simpl. by read_cell.
Qed.

(** C6. The setter chooses between its two forms by [typeof] alone. A value
    that is not a function is stored. A function is always called, with the
    value the cell holds, and the cell receives what the call returned (and
    is not assigned when the call throws): the function itself is never
    stored as a literal. *)
Theorem setter_discriminates_by_typeof initialValue asReadonly w :
  ∃ handle setter w1,
    useRefState fn_sem initialValue asReadonly w = (Normal (handle, setter), w1)
    ∧ ∀ v w2,
        (typeof v ≠ "function" → setter v w2 = set_value (target_of handle) v w2)
        ∧ (typeof v = "function" →
           ∃ g, v = VFunction g
             ∧ setter v w2 =
                 match fn_sem g (current (target_of handle) w2) (cells w2) with
                 | (Normal next, cs) =>
                     (Normal tt,
                      mkWorld (<[cell (target_of handle) := next]> cs) (next_ref w2)
                              (calls w2 ++ [(g, current (target_of handle) w2)]))
                 | (Throw e, cs) =>
                     (Throw e,
                      mkWorld cs (next_ref w2)
                              (calls w2 ++ [(g, current (target_of handle) w2)]))
                 end).
Proof.
  eexists _, _, _. split; [apply useRefState_creates|].
  intros v w2. rewrite target_of_handle_for. split.
  - intros Hv. apply setState_literal. unfold setterIsFunction.
    by apply String.eqb_neq.
  - intros Hv. destruct (callable_is_function v) as [g ->].
    { unfold setterIsFunction. by apply String.eqb_eq. }
    exists g. split; [done|]. apply setState_callable.
Qed.

(** C7. The handle and the setter of one call are over the same cell. In
    either access mode a value set through the setter is what the handle
    reads next. In mutable mode a value assigned through the handle is what
    the handle reads next and what the setter passes to an updater. *)
Theorem handle_and_setter_share_cell initialValue asReadonly w :
  ∃ handle setter w1,
    useRefState fn_sem initialValue asReadonly w = (Normal (handle, setter), w1)
    ∧ (∀ y w2, setterIsFunction y = false →
         ∃ w3, setter y w2 = (Normal tt, w3) ∧ handle_get handle w3 = (Normal y, w3))
    ∧ (∀ g w2 w3, setter (VFunction g) w2 = (Normal tt, w3) →
         ∃ next cs, fn_sem g (current (target_of handle) w2) (cells w2) = (Normal next, cs)
                    ∧ handle_get handle w3 = (Normal next, w3))
    ∧ (asReadonly = Some false →
         ∀ v w2, ∃ w3,
           handle_set handle v w2 = (Normal tt, w3)
           ∧ handle_get handle w3 = (Normal v, w3)
           ∧ ∀ g, calls (setter (VFunction g) w3).2 = calls w3 ++ [(g, v)]).
Proof.
  eexists _, _, _. split; [apply useRefState_creates|].
  rewrite target_of_handle_for. split; [|split].
  - intros y w2 Hy. eexists. rewrite setState_literal by done.
    split; [reflexivity|].
    rewrite handle_get_current, target_of_handle_for. by read_cell.
  - intros g w2 w3. rewrite setState_callable.
    destruct (fn_sem g _ (cells w2)) as [[next|e] cs]; [|discriminate].
    intros [= <-]. exists next, cs. split; [done|].
    rewrite handle_get_current, target_of_handle_for. by read_cell.
  - intros -> v w2. eexists. split; [reflexivity|].
    rewrite handle_get_current. simpl. split; [by read_cell|].
    intros g. rewrite setState_calls. by read_cell.
Qed.

(** C8. Straight after creation the handle reads the initial value, and
    [undefined] when no initial value was passed. *)
Theorem initial_value_is_current asReadonly w :
  (∀ x, ∃ handle setter w1,
      useRefState fn_sem (Some x) asReadonly w = (Normal (handle, setter), w1)
      ∧ handle_get handle w1 = (Normal x, w1))
  ∧ (∃ handle setter w1,
      useRefState fn_sem None asReadonly w = (Normal (handle, setter), w1)
      ∧ handle_get handle w1 = (Normal VUndefined, w1)).
Proof.
  split; [intros x|]; eexists _, _, _; (split; [apply useRefState_creates|]);
    rewrite handle_get_current, target_of_handle_for; by read_cell.
Qed.

(** C9. Two calls make two cells. Whatever sequence of mutations, through
    the setter or by direct assignment, is applied to one of them, the
    other handle reads what it read before. The second call may come at any
    later point of the program; the updaters passed to the setter write no
    cell themselves. *)
Theorem independent_cells x1 ro1 x2 ro2 w w' :
  next_ref (useRefState fn_sem x1 ro1 w).2 ≤ next_ref w' →
  ∃ handle1 setter1 w1 handle2 setter2 w2,
    useRefState fn_sem x1 ro1 w = (Normal (handle1, setter1), w1)
    ∧ useRefState fn_sem x2 ro2 w' = (Normal (handle2, setter2), w2)
    ∧ ∀ ms w3, Forall (quiet fn_sem) ms →
        (handle_get handle2 (mutate_all handle1 setter1 ms w3)).1
          = (handle_get handle2 w3).1
        ∧ (handle_get handle1 (mutate_all handle2 setter2 ms w3)).1
          = (handle_get handle1 w3).1.
Proof.
  rewrite useRefState_next_ref. intros Hlater.
  eexists _, _, _, _, _, _. split; [apply useRefState_creates|].
  split; [apply useRefState_creates|].
  intros ms w3 Hq. rewrite !handle_get_current. simpl.
  rewrite !target_of_handle_for.
  split; f_equal; apply mutate_all_other; try done;
    try apply target_of_handle_for; simpl; lia.
Qed.

(** C10. In read-only mode (the default) the handle is a read-only proxy:
    an assignment through it changes nothing, so the handle reads the value
    it read before and the setter passes that value to an updater. *)
Theorem readonly_handle_ignores_assignment initialValue asReadonly w :
  default true asReadonly = true →
  ∃ handle setter w1,
    useRefState fn_sem initialValue asReadonly w = (Normal (handle, setter), w1)
    ∧ isReadonly handle = true
    ∧ ∀ v w2,
        handle_set handle v w2 = (Normal tt, w2)
        ∧ handle_get handle (handle_set handle v w2).2 = handle_get handle w2
        ∧ ∀ g, calls (setter (VFunction g) (handle_set handle v w2).2).2
               = calls w2 ++ [(g, current (target_of handle) w2)].
Proof.
  intros Hro. eexists _, _, _. split; [apply useRefState_creates|].
  unfold handle_for. rewrite Hro. simpl. split; [done|].
  intros v w2. split; [done|]. split; [done|].
  intros g. by rewrite setState_calls.
Qed.

End RefState.

(** ** The claims at concrete inputs *)

Lemma setter_literal_sets_value_witness :
  ∃ handle setter w1,
    useRefState Examples.fns (Some (num 0)) None Examples.start
      = (Normal (handle, setter), w1)
    ∧ ∀ w2, ∃ w3,
        setter (num 42) w2 = (Normal tt, w3)
        ∧ handle_get handle w3 = (Normal (num 42), w3)
        ∧ setter (num 42) w3 = (Normal tt, w3).
Proof.
  apply (setter_literal_sets_value Examples.fns (Some (num 0)) None Examples.start (num 42)).
  reflexivity.
Defined.

Lemma setter_updater_applies_function_witness :
  ∃ handle setter w1,
    useRefState Examples.fns (Some (num 1)) None Examples.start
      = (Normal (handle, setter), w1)
    ∧ ∀ w2, ∃ c w3,
        handle_get handle w2 = (Normal c, w2)
        ∧ setter (VFunction 0) w2 = (Normal tt, w3)
        ∧ handle_get handle w3 = (Normal (js_add c (num 1)), w3)
        ∧ calls w3 = calls w2 ++ [(0, c)]
        ∧ cells w3 = <[cell (target_of handle) := js_add c (num 1)]> (cells w2)
        ∧ next_ref w3 = next_ref w2.
Proof.
  apply (setter_updater_applies_function Examples.fns (Some (num 1)) None Examples.start
           0 (λ prev, js_add prev (num 1))).
  intros arg cs. reflexivity.
Defined.

Lemma independent_cells_witness :
  ∃ handle1 setter1 w1 handle2 setter2 w2,
    useRefState Examples.fns (Some (num 1)) None Examples.start
      = (Normal (handle1, setter1), w1)
    ∧ useRefState Examples.fns (Some (num 2)) (Some false)
        (useRefState Examples.fns (Some (num 1)) None Examples.start).2
      = (Normal (handle2, setter2), w2)
    ∧ ∀ ms w3, Forall (quiet Examples.fns) ms →
        (handle_get handle2 (mutate_all handle1 setter1 ms w3)).1
          = (handle_get handle2 w3).1
        ∧ (handle_get handle1 (mutate_all handle2 setter2 ms w3)).1
          = (handle_get handle1 w3).1.
Proof.
  apply (independent_cells
           Examples.fns (Some (num 1)) None (Some (num 2)) (Some false) Examples.start
           (useRefState Examples.fns (Some (num 1)) None Examples.start).2).
  simpl. lia.
Defined.

Lemma readonly_handle_ignores_assignment_witness :
  ∃ handle setter w1,
    useRefState Examples.fns (Some (num 42)) None Examples.start
      = (Normal (handle, setter), w1)
    ∧ isReadonly handle = true
    ∧ ∀ v w2,
        handle_set handle v w2 = (Normal tt, w2)
        ∧ handle_get handle (handle_set handle v w2).2 = handle_get handle w2
        ∧ ∀ g, calls (setter (VFunction g) (handle_set handle v w2).2).2
               = calls w2 ++ [(g, current (target_of handle) w2)].
Proof.
  apply (readonly_handle_ignores_assignment Examples.fns (Some (num 42)) None Examples.start).
  reflexivity.
Defined.

(** ** The repository's tests and the spec's scenarios, evaluated *)

Section Scenarios.

Import Examples.

(** [index.test.ts] of use-ref-state. *)
Example initializes_with_value : (initialize_with (Some (num 42)) start).1 = Normal (num 42).
Proof. vm_compute. reflexivity. Qed.

Example initializes_with_undefined : (initialize_with None start).1 = Normal VUndefined.
Proof. vm_compute. reflexivity. Qed.

Example initializes_with_null : (initialize_with (Some VNull) start).1 = Normal VNull.
Proof. vm_compute. reflexivity. Qed.

Example updates_with_direct_value : (update_with (num 0) (num 42) start).1 = Normal (num 42).
Proof. vm_compute. reflexivity. Qed.

Example updates_with_functional_updater :
  (update_with (num 1) (VFunction 0) start).1 = Normal (num 2).
Proof. vm_compute. reflexivity. Qed.

Example readonly_ref_by_default : (readonly_by_default start).1 = Normal true.
Proof. vm_compute. reflexivity. Qed.

Example mutable_ref_when_asReadonly_false :
  (assign_directly (Some false) (num 42) (num 100) start).1 = Normal (num 100).
Proof. vm_compute. reflexivity. Qed.

Example readonly_ref_drops_assignment :
  (assign_directly None (num 42) (num 100) start).1 = Normal (num 42).
Proof. vm_compute. reflexivity. Qed.

(** A function passed to the setter is called, not stored: after
    [setState(fn1)] the cell holds what function 1 returned. *)
Example function_argument_is_called :
  (update_with (num 1) (VFunction 1) start).1 = Normal (VFunction 0).
Proof. vm_compute. reflexivity. Qed.

(** An updater that throws leaves the cell as it was. *)
Example throwing_updater_propagates :
  update_with (num 1) (VFunction 2) start
  = (Throw (new_Error "boom"), mkWorld {[0 := num 1]} 1 [(2, num 1)]).
Proof. vm_compute. reflexivity. Qed.

(** An updater that writes the cell itself is overwritten by the
    assignment of its result. *)
Example updater_result_is_assigned_last :
  (update_with (num 1) (VFunction 3) start).1 = Normal (num 1).
Proof. vm_compute. reflexivity. Qed.

(** [index.test.ts] of use-provider and the spec's scenarios. *)
Example retrieves_published_object :
  useProvider [provide "user" john ∅] "user" = Normal john.
Proof. vm_compute. reflexivity. Qed.

Example throws_when_provider_is_missing :
  useProvider [] "test-provider"
  = Throw (new_Error "Incorrect use of provider test-provider. You may have forgotten to wrap it in the corresponding component.").
Proof. vm_compute. reflexivity. Qed.

Example works_with_different_keys :
  let ancestors := [provide "provider-b" (VObject 2) (provide "provider-a" (VObject 1) ∅)] in
  useProvider ancestors "provider-a" = Normal (VObject 1)
  ∧ useProvider ancestors "provider-b" = Normal (VObject 2).
Proof. vm_compute. done. Qed.

Example published_null_is_as_unpublished :
  useProvider [provide "user" VNull ∅] "user" = useProvider [] "user"
  ∧ useProvider [provide "user" VUndefined ∅] "user" = useProvider [] "user".
Proof. vm_compute. done. Qed.

Example falsy_values :
  ToBoolean (num 0) = false ∧ ToBoolean negative_zero = false ∧ ToBoolean NaN = false
  ∧ ToBoolean (VString "") = false ∧ ToBoolean (VBool false) = false
  ∧ ToBoolean (VBigInt 0) = false.
Proof. vm_compute. done. Qed.

Example one_plus_one : js_add (num 1) (num 1) = num 2.
Proof. vm_compute. reflexivity. Qed.

End Scenarios.

(** * Further properties of [useProvider] *)

Section ProviderMore.

Implicit Types (ancestors : Ancestors) (key : string) (v : JSValue).

Lemma string_app_length (s1 s2 : string) :
  String.length (s1 +:+ s2) = String.length s1 + String.length s2.
Proof.
  induction s1 as [|a s1 IH]; [done|].
  change (S (String.length (s1 +:+ s2)) = S (String.length s1 + String.length s2)).
  by rewrite IH.
Qed.

Lemma string_app_inj_r (s1 s2 t : string) : s1 +:+ t = s2 +:+ t → s1 = s2.
Proof.
  revert s2. induction s1 as [|a s1 IH]; intros [|b s2] Heq; [done| | |].
  - apply (f_equal String.length) in Heq.
    change (String.length t = S (String.length (s2 +:+ t))) in Heq.
    rewrite string_app_length in Heq. lia.
  - apply (f_equal String.length) in Heq.
    change (S (String.length (s1 +:+ t)) = String.length t) in Heq.
    rewrite string_app_length in Heq. lia.
  - change (String a (s1 +:+ t) = String b (s2 +:+ t)) in Heq.
    injection Heq as -> Heq. f_equal. by apply IH.
Qed.

(** X1. A truthy value published under the key is returned as it was
    published: the same value, the same reference. *)
Theorem useProvider_returns_published_truthy ancestors key v :
  resolve ancestors key = Some v →
  ToBoolean v = true →
  useProvider ancestors key = Normal v.
Proof. apply useProvider_returns_truthy. Qed.

Lemma useProvider_returns_published_truthy_witness :
  useProvider [provide "user" Examples.john ∅] "user" = Normal Examples.john.
Proof.
  apply (useProvider_returns_published_truthy [provide "user" Examples.john ∅] "user" Examples.john);
    vm_compute; reflexivity.
Defined.

(** X2. [useProvider] throws exactly when nothing is published under the key
    or the published value is falsy. *)
Theorem useProvider_throws_exactly_when_falsy ancestors key :
  throws (useProvider ancestors key) = true
  ↔ resolve ancestors key = None
    ∨ ∃ v, resolve ancestors key = Some v ∧ ToBoolean v = false.
Proof.
  rewrite useProvider_throws_iff. unfold inject.
  destruct (resolve ancestors key) as [v|]; simpl.
  - split; [eauto|]. intros [|(v' & [= <-] & Hv)]; done.
  - split; [auto|done].
Qed.

(** X3. A value [useProvider] returns is never [null] or [undefined]: it is
    truthy, and it is the value published under the key. *)
Theorem useProvider_result_is_non_nullable ancestors key v :
  useProvider ancestors key = Normal v →
  is_nullish v = false ∧ ToBoolean v = true ∧ resolve ancestors key = Some v.
Proof.
  unfold useProvider, inject. simpl.
  destruct (resolve ancestors key) as [v'|]; simpl; [|discriminate].
  destruct (ToBoolean v') eqn:Hv; simpl; [|discriminate].
  intros [= <-]. split; [|done]. by destruct v'.
Qed.

Lemma useProvider_result_is_non_nullable_witness :
  is_nullish (VString "dark") = false ∧ ToBoolean (VString "dark") = true
  ∧ resolve [provide "theme" (VString "dark") ∅] "theme" = Some (VString "dark").
Proof.
  apply (useProvider_result_is_non_nullable [provide "theme" (VString "dark") ∅] "theme").
  vm_compute. reflexivity.
Defined.

(** X4. Whatever made [useProvider] fail, what it throws is an [Error] whose
    message contains the key and the fixed hint. *)
Theorem useProvider_error_names_key ancestors key e :
  useProvider ancestors key = Throw e →
  ∃ message, e = ErrorObject "Error" message
             ∧ occurs_in key message
             ∧ occurs_in remediation_hint message.
Proof.
  intros He. apply useProvider_one_error in He as ->.
  exists (error_message key). split; [done|].
  split; [apply error_message_names_key | apply error_message_has_hint].
Qed.

Lemma useProvider_error_names_key_witness :
  ∃ message, new_Error (error_message "missing") = ErrorObject "Error" message
             ∧ occurs_in "missing" message
             ∧ occurs_in remediation_hint message.
Proof.
  apply (useProvider_error_names_key [] "missing"). vm_compute. reflexivity.
Defined.

(** X5. The message identifies the key: two different keys give two
    different messages. *)
Theorem error_message_identifies_key key key' :
  key ≠ key' → error_message key ≠ error_message key'.
Proof.
  unfold error_message. intros Hne Heq. apply Hne.
  apply (inj (String.app _)) in Heq. by apply string_app_inj_r in Heq.
Qed.

Lemma error_message_identifies_key_witness :
  error_message "provider-a" ≠ error_message "provider-b".
Proof.
  apply (error_message_identifies_key "provider-a" "provider-b"). discriminate.
Defined.



End ProviderMore.

(** * Further properties of [useRefState] *)

Section RefStateMore.

Variable fn_sem : nat → JSValue → gmap nat JSValue → Outcome JSValue * gmap nat JSValue.

Implicit Types (state : Ref) (handle : Handle) (w : World) (v y : JSValue).
Implicit Types (initialValue : option JSValue) (asReadonly : option bool).

Lemma mutate_all_app handle (set : JSValue → M unit) ms ms' w :
  mutate_all handle set (ms ++ ms') w = mutate_all handle set ms' (mutate_all handle set ms w).
Proof. revert w. induction ms as [|m ms IH]; intros w; [done|]. simpl. apply IH. Qed.

Lemma mutate_all_value handle state f ms w :
  target_of handle = state →
  Forall (updater_is fn_sem f) ms →
  current state (mutate_all handle (setState fn_sem state) ms w)
  = fold_left (apply_mutation f (isReadonly handle)) ms (current state w).
Proof.
  intros <- Hpure. revert w. induction Hpure as [|m ms Hm _ IH]; intros w; [done|].
  simpl. rewrite IH. f_equal. destruct m as [setter|v]; simpl.
  - destruct (setterIsFunction setter) eqn:Hs.
    + apply callable_is_function in Hs as [g ->]. simpl in Hm.
      rewrite setState_callable, Hm. by read_cell.
    + rewrite setState_literal by done. read_cell. by destruct setter.
  - destruct handle as [r|r]; simpl; [by read_cell|done].
Qed.

Lemma mutate_all_calls handle state ms w :
  (calls (mutate_all handle (setState fn_sem state) ms w)).*1 = (calls w).*1 ++ updaters ms.
Proof.
  revert w. induction ms as [|m ms IH]; intros w; simpl.
  { by rewrite app_nil_r. }
  rewrite IH. destruct m as [setter|v]; simpl.
  - destruct (setterIsFunction setter) eqn:Hs.
    + apply callable_is_function in Hs as [g ->].
      rewrite setState_calls, fmap_app. simpl. by rewrite <- app_assoc.
    + rewrite setState_literal by done. by destruct setter.
  - by destruct handle.
Qed.

(** X7. The setter throws nothing of its own: when a call of the setter
    throws, its argument was a function and the throw is that function's. *)
Theorem setter_throws_only_from_updater initialValue asReadonly w :
  ∃ handle setter w1,
    useRefState fn_sem initialValue asReadonly w = (Normal (handle, setter), w1)
    ∧ ∀ v w2 e w3,
        setter v w2 = (Throw e, w3) →
        ∃ g, v = VFunction g
             ∧ (fn_sem g (current (target_of handle) w2) (cells w2)).1 = Throw e.
Proof.
  eexists _, _, _. split; [apply useRefState_creates|].
  rewrite target_of_handle_for. intros v w2 e w3.
  destruct (setterIsFunction v) eqn:Hv.
  - apply callable_is_function in Hv as [g ->]. rewrite setState_callable.
    destruct (fn_sem g _ (cells w2)) as [[next|e'] cs] eqn:Hg; [discriminate|].
    intros [= -> _]. exists g. by rewrite Hg.
  - by rewrite setState_literal.
Qed.

(** X8. When the updater throws, the cell is not assigned: with an updater
    that writes no cell, the world after the failed call is the world before
    it, but for the record of the call. *)
Theorem throwing_updater_keeps_value state g e w :
  writes_nothing fn_sem g →
  (fn_sem g (current state w) (cells w)).1 = Throw e →
  setState fn_sem state (VFunction g) w
  = (Throw e, mkWorld (cells w) (next_ref w) (calls w ++ [(g, current state w)])).
Proof.
  intros Hq He. rewrite setState_callable. specialize (Hq (current state w) (cells w)).
  destruct (fn_sem g _ (cells w)) as [[next|e'] cs]; simpl in *; [discriminate|].
  by simplify_eq.
Qed.

(** X9. The result of the updater is assigned after the updater has run:
    whatever the updater itself wrote to the cell, the cell ends with the
    value it returned, and every other cell is as the updater left it. *)
Theorem updater_result_assigned_last state g next cs w :
  fn_sem g (current state w) (cells w) = (Normal next, cs) →
  ∃ w', setState fn_sem state (VFunction g) w = (Normal tt, w')
        ∧ current state w' = next
        ∧ ∀ l, l ≠ cell state → cells w' !! l = cs !! l.
Proof.
  intros Hg. rewrite setState_callable, Hg. eexists. split; [done|].
  split; [by read_cell|]. intros l Hl. simpl. by rewrite lookup_insert_ne.
Qed.

(** X10. A sequence of mutations acts on the cell as a left fold: a value
    replaces the cell's value, a pure updater is applied to it, and a direct
    assignment replaces it through a mutable handle and is dropped by a
    read-only one. *)
Theorem mutations_fold initialValue asReadonly w f ms :
  Forall (updater_is fn_sem f) ms →
  ∃ handle setter w1,
    useRefState fn_sem initialValue asReadonly w = (Normal (handle, setter), w1)
    ∧ ∀ w2,
        (handle_get handle (mutate_all handle setter ms w2)).1
        = Normal (fold_left (apply_mutation f (default true asReadonly)) ms
                    (current (target_of handle) w2)).
Proof.
  intros Hpure. eexists _, _, _. split; [apply useRefState_creates|].
  intros w2. rewrite handle_get_current. simpl. f_equal.
  rewrite target_of_handle_for.
  rewrite (mutate_all_value _ _ f) by (done || apply target_of_handle_for).
  f_equal. f_equal. unfold handle_for. by destruct (default true asReadonly).
Qed.

(** X11. The setter calls each function it is given exactly once, in the
    order given, and calls nothing when given a value or when the handle is
    assigned directly. *)
Theorem setter_calls_each_updater_once initialValue asReadonly w :
  ∃ handle setter w1,
    useRefState fn_sem initialValue asReadonly w = (Normal (handle, setter), w1)
    ∧ calls w1 = calls w
    ∧ ∀ ms w2,
        (calls (mutate_all handle setter ms w2)).*1 = (calls w2).*1 ++ updaters ms.
Proof.
  eexists _, _, _. split; [apply useRefState_creates|]. split; [done|].
  intros ms w2. apply mutate_all_calls.
Qed.

(** X12. Creating a state leaves the cells that exist as they are: a cell
    made earlier reads the same value after [useRefState] as before, and it
    is not the new state's cell. *)
Theorem useRefState_keeps_existing_cells initialValue asReadonly w state :
  cell state < next_ref w →
  ∃ handle setter w1,
    useRefState fn_sem initialValue asReadonly w = (Normal (handle, setter), w1)
    ∧ target_of handle ≠ state
    ∧ current state w1 = current state w
    ∧ next_ref w < next_ref w1.
Proof.
  intros Hold. eexists _, _, _. split; [apply useRefState_creates|].
  rewrite target_of_handle_for. split; [|split].
  - intros <-. simpl in Hold. lia.
  - unfold current. simpl. rewrite lookup_insert_ne; [done|lia].
  - simpl. lia.
Qed.

End RefStateMore.

Lemma throwing_updater_keeps_value_witness :
  setState Examples.fns (mkRef 0) (VFunction 2) Examples.one_cell
  = (Throw (new_Error "boom"),
     mkWorld (cells Examples.one_cell) (next_ref Examples.one_cell)
       (calls Examples.one_cell ++ [(2, current (mkRef 0) Examples.one_cell)])).
Proof.
  apply (throwing_updater_keeps_value Examples.fns (mkRef 0) 2 (new_Error "boom")
           Examples.one_cell).
  - intros arg cs. reflexivity.
  - reflexivity.
Defined.

Lemma updater_result_assigned_last_witness :
  ∃ w', setState Examples.fns (mkRef 0) (VFunction 3) Examples.one_cell = (Normal tt, w')
        ∧ current (mkRef 0) w' = num 1
        ∧ ∀ l, l ≠ cell (mkRef 0) →
               cells w' !! l = <[0 := VNull]> (cells Examples.one_cell) !! l.
Proof.
  apply (updater_result_assigned_last Examples.fns (mkRef 0) 3 (num 1)
           (<[0 := VNull]> (cells Examples.one_cell)) Examples.one_cell).
  reflexivity.
Defined.

Lemma mutations_fold_witness :
  ∃ handle setter w1,
    useRefState Examples.fns (Some (num 1)) (Some false) Examples.start
      = (Normal (handle, setter), w1)
    ∧ ∀ w2,
        (handle_get handle
           (mutate_all handle setter
              [ViaSetter (VFunction 0); Direct (num 5); ViaSetter (VFunction 0)] w2)).1
        = Normal (fold_left (apply_mutation (λ _ prev, js_add prev (num 1))
                               (default true (Some false)))
                    [ViaSetter (VFunction 0); Direct (num 5); ViaSetter (VFunction 0)]
                    (current (target_of handle) w2)).
Proof.
  apply (mutations_fold Examples.fns (Some (num 1)) (Some false) Examples.start
           (λ _ prev, js_add prev (num 1))
           [ViaSetter (VFunction 0); Direct (num 5); ViaSetter (VFunction 0)]).
  repeat constructor; intros arg cs; reflexivity.
Defined.

Lemma useRefState_keeps_existing_cells_witness :
  ∃ handle setter w1,
    useRefState Examples.fns (Some (num 2)) None Examples.one_cell
      = (Normal (handle, setter), w1)
    ∧ target_of handle ≠ mkRef 0
    ∧ current (mkRef 0) w1 = current (mkRef 0) Examples.one_cell
    ∧ next_ref Examples.one_cell < next_ref w1.
Proof.
  apply (useRefState_keeps_existing_cells Examples.fns (Some (num 2)) None
           Examples.one_cell (mkRef 0)).
  simpl. lia.
Defined.

(** The last fold, evaluated: [1], then [+ 1], then [= 5], then [+ 1]. *)
Example mutations_fold_example :
  fold_left (apply_mutation (λ _ prev, js_add prev (num 1)) false)
    [ViaSetter (VFunction 0); Direct (num 5); ViaSetter (VFunction 0)] (num 1)
  = num 6.
Proof. vm_compute. reflexivity. Qed.
